(** * Tummler flight-controller board descriptor

    Shallow embedding of
    [core/services/ardupilot_manager/flight_controller_detector/linux/tummler.py]:
    the class [Tummler], its class attributes [manufacturer] and [devices],
    its constructor and its two methods [detect] and [get_serials].

    Python objects live in an explicit world: the class namespace of
    [Tummler], the heap of instances, the I2C hardware behind the probe, and
    a log of the externally visible calls (bus probes, base-class
    constructor).  Methods are computations in a state-and-exception monad
    over that world. *)

From Stdlib Require Import ZArith List Lia.
From stdpp Require Import base strings gmap list.

Local Open Scope Z_scope.
Local Open Scope string_scope.
Local Open Scope list_scope.

(** ** Values from [typedefs] *)

Module Platform.
(** Modelled from the spec: [typedefs.Platform] is not part of the sources;
    the spec describes it as "an identifier from a closed enumeration of
    supported board models (one value per physical board type)".  The only
    member the board file names is [Platform.Tummler]; the other members
    are kept apart by their label. *)
Inductive t : Type :=
| Tummler
| Other (label : string).

#[global] Instance eq_dec : EqDecision t.
Proof. solve_decision. Defined.
End Platform.

(** Modelled from the spec: [typedefs.Serial] is not part of the sources;
    the spec describes it as "a value object {port, endpoint}", and the board
    file builds it by keyword as [Serial(port=..., endpoint=...)]. *)
Record Serial : Type := mkSerial {
  port : string;
  endpoint : string
}.

#[global] Instance Serial_eq_dec : EqDecision Serial.
Proof. solve_decision. Defined.

(** Values that may travel in the keyword dictionary [**data]. *)
Inductive value : Type :=
| VNone
| VBool (b : bool)
| VInt (z : Z)
| VStr (s : string)
| VPlatform (p : Platform.t).

#[global] Instance value_eq_dec : EqDecision value.
Proof. solve_decision. Defined.

(** ** Exceptions *)

Inductive type_error : Type :=
| MultipleValues (key : string)   (* got multiple values for keyword argument *)
| BadArgument (key : string).     (* missing or ill-typed constructor argument *)

Inductive exn : Type :=
| BusAccessError
| TypeError (why : type_error).

(** ** The world *)

(** What the bus answers at (bus index, address). *)
Inductive probe_outcome : Type :=
| Present
| Absent
| Fault.

Definition is_present (o : probe_outcome) : bool :=
  match o with Present => true | _ => false end.

(** Externally visible calls, logged in program order. *)
Inductive event : Type :=
| Probe (bus_index address : Z) (answer : probe_outcome)
| BaseInit (kwargs : gmap string value).

(** A device table keeps the insertion order of the dict literal. *)
Definition device_table : Type := list (string * (Z * Z)).

(** The namespace of class [Tummler]: its two class attributes. *)
Record class_attrs : Type := mkClass {
  cls_manufacturer : string;
  cls_devices : device_table
}.

(** The attributes the base constructor leaves on an instance.  A
    manufacturer of its own is there only when the keywords carried one. *)
Record instance : Type := mkInstance {
  name : string;
  platform : Platform.t;
  own_manufacturer : option value
}.

Definition ref : Type := nat.

Record World : Type := mkWorld {
  hardware : Z -> Z -> probe_outcome;   (* bus index, then address *)
  Tummler_class : class_attrs;
  heap : list (option instance);        (* [None]: allocated, not yet built *)
  trace : list event
}.

(** ** Computations *)

Inductive outcome (A : Type) : Type :=
| Returns (a : A)
| Raises (e : exn).
Arguments Returns {A} a.
Arguments Raises {A} e.

Definition M (A : Type) : Type := World -> outcome A * World.

Definition ret {A} (a : A) : M A := fun w => (Returns a, w).

Definition raise {A} (e : exn) : M A := fun w => (Raises e, w).

Definition bind {A B} (m : M A) (k : A -> M B) : M B :=
  fun w =>
    match m w with
    | (Returns a, w') => k a w'
    | (Raises e, w') => (Raises e, w')
    end.

Notation "x <-- m ;; k" := (bind m (fun x => k))
  (at level 100, m at next level, right associativity).
Notation "m ;;; k" := (bind m (fun _ => k))
  (at level 100, right associativity).

Definition result_of {A} (m : M A) (w : World) : outcome A := fst (m w).
Definition world_after {A} (m : M A) (w : World) : World := snd (m w).

Definition log (e : event) : M unit :=
  fun w => (Returns tt,
            mkWorld (hardware w) (Tummler_class w) (heap w) (trace w ++ [e])).

Definition read_devices : M device_table :=
  fun w => (Returns (cls_devices (Tummler_class w)), w).

Definition read_manufacturer : M string :=
  fun w => (Returns (cls_manufacturer (Tummler_class w)), w).

(** [object.__new__]: a fresh, not yet initialised object. *)
Definition allocate : M ref :=
  fun w => (Returns (length (heap w)),
            mkWorld (hardware w) (Tummler_class w) (heap w ++ [None]) (trace w)).

Definition store (r : ref) (i : instance) : M unit :=
  fun w => (Returns tt,
            mkWorld (hardware w) (Tummler_class w) (<[r := Some i]> (heap w)) (trace w)).

(** ** Python built-ins used by the board file *)

(** [d.values()] of a dict, in insertion order. *)
Definition values {K V} (d : list (K * V)) : list V := map snd d.

(** [all(f(x) for x in xs)]: the generator is consumed from the left and
    abandoned at the first falsy element; an exception raised while an
    element is produced leaves [all]. *)
Fixpoint all {A} (f : A -> M bool) (xs : list A) : M bool :=
  match xs with
  | [] => ret true
  | x :: rest => b <-- f x ;; if b then all f rest else ret false
  end.

(** Passing [**data, k1=v1, ..., kn=vn] to a call: the explicit keywords are
    merged into the unpacked dictionary one by one, and a keyword that is
    already there raises [TypeError] before the callee is entered. *)
Fixpoint merge_keywords (data : gmap string value)
    (explicit : list (string * value)) : outcome (gmap string value) :=
  match explicit with
  | [] => Returns data
  | (k, v) :: rest =>
      match data !! k with
      | Some _ => Raises (TypeError (MultipleValues k))
      | None => merge_keywords (<[k := v]> data) rest
      end
  end.

Definition lift {A} (o : outcome A) : M A := fun w => (o, w).

(** ** The base class [LinuxFlightController] *)

Module LinuxFlightController.

(** Modelled from the spec: the method [check_for_i2c_device] of the base
    class is not part of the sources.  It is the spec's BusProbe,
    [exists(bus_index, address) -> boolean]: one bus transaction, which
    answers [true] when a device responds, [false] when none does, and
    fails with [BusAccessError] when the bus cannot be queried; "no side
    effects beyond the bus transaction itself".  Bus index and address are
    taken as valid for the host: the spec makes out-of-range values an
    error of the caller, and that error is not modelled. *)
Definition check_for_i2c_device (self : ref) (bus_index address : Z) : M bool :=
  fun w =>
    let answer := hardware w bus_index address in
    let w' := mkWorld (hardware w) (Tummler_class w) (heap w)
                      (trace w ++ [Probe bus_index address answer]) in
    match answer with
    | Present => (Returns true, w')
    | Absent => (Returns false, w')
    | Fault => (Raises BusAccessError, w')
    end.

(** Modelled from the spec: the constructor of the base class is not part
    of the sources.  The spec's descriptor is "named", it is "parameterized
    by a manufacturer name, platform identifier", it "holds manufacturer,
    platform, devices", and its platform is "assigned at descriptor
    construction".  So the constructor records on the instance the [name]
    and the [platform] it is given and, when the keywords carry one, the
    [manufacturer], as it is.  The device table is static data of the class,
    and no keyword value can hold one. *)
Definition __init__ (self : ref) (kwargs : gmap string value) : M unit :=
  log (BaseInit kwargs) ;;;
  match kwargs !! "name", kwargs !! "platform" with
  | Some (VStr n), Some (VPlatform p) =>
      store self (mkInstance n p (kwargs !! "manufacturer"))
  | Some (VStr _), _ => raise (TypeError (BadArgument "platform"))
  | _, _ => raise (TypeError (BadArgument "name"))
  end.

End LinuxFlightController.

(** ** The class [Tummler] *)

Module Tummler.

Definition manufacturer : string := "Tummler ROV".

Definition devices : device_table := [("STM32", (0x66, 1))].

(** The namespace the class statement creates. *)
Definition class_body : class_attrs := mkClass manufacturer devices.

Definition __init__ (self : ref) (data : gmap string value) : M unit :=
  let name := "Tummler" in
  let plat := Platform.Tummler in
  kwargs <-- lift (merge_keywords data
                     [("name", VStr name); ("platform", VPlatform plat)]) ;;
  LinuxFlightController.__init__ self kwargs.

Definition detect (self : ref) : M bool :=
  devices <-- read_devices ;;
  all (fun '(address, bus) =>
         LinuxFlightController.check_for_i2c_device self bus address)
      (values devices).

Definition get_serials (self : ref) : M (list Serial) :=
  ret [ mkSerial "C" "/dev/ttyAMA0";
        mkSerial "B" "/dev/ttyAMA2" ].

(** The class called with the keywords [data]: allocate the object, bind
    the arguments of [__init__(self, **data)] (a key ["self"] in [data]
    collides with the positional parameter), run the body, hand back the
    object. *)
Definition construct (data : gmap string value) : M ref :=
  self <-- allocate ;;
  match data !! "self" with
  | Some _ => raise (TypeError (MultipleValues "self"))
  | None => __init__ self data ;;; ret self
  end.


End Tummler.

(** ** Worlds, logs and what a run leaves behind *)

(** The world right after the class statement has run, on hardware [hw]. *)
Definition boot (hw : Z -> Z -> probe_outcome) : World :=
  mkWorld hw Tummler.class_body [] [].

(** The class namespace still is the one the class statement created. *)
Definition class_defined (w : World) : Prop :=
  Tummler_class w = Tummler.class_body.

(** The same world with another device table on the class. *)
Definition with_devices (devs : device_table) (w : World) : World :=
  mkWorld (hardware w)
          (mkClass (cls_manufacturer (Tummler_class w)) devs)
          (heap w) (trace w).

(** The events a computation adds to the log of [w]. *)
Definition emitted {A} (m : M A) (w : World) : list event :=
  drop (length (trace w)) (trace (world_after m w)).

Definition is_probe (e : event) : bool :=
  match e with Probe _ _ _ => true | BaseInit _ => false end.

Definition is_base_init (e : event) : bool :=
  match e with Probe _ _ _ => false | BaseInit _ => true end.

(** The probe call counter and the base-constructor call counter of a log. *)
Definition probe_calls (tr : list event) : nat := length (filter is_probe tr).
Definition base_init_calls (tr : list event) : nat :=
  length (filter is_base_init tr).

(** No configured address of the world's device table answers with a fault. *)
Definition fault_free (w : World) : Prop :=
  forall key address bus,
    In (key, (address, bus)) (cls_devices (Tummler_class w)) ->
    hardware w bus address <> Fault.

(** The probe of one entry [(address, bus)] of the table, as [detect] issues it. *)
Definition probe_entry (self : ref) (entry : Z * Z) : M bool :=
  let '(address, bus) := entry in
  LinuxFlightController.check_for_i2c_device self bus address.

(** What the hardware makes of a left-to-right, short-circuit scan of the
    entries: the verdict and the probes that are issued on the way. *)
Fixpoint scan_verdict (hw : Z -> Z -> probe_outcome) (entries : list (Z * Z))
    : outcome bool :=
  match entries with
  | [] => Returns true
  | (address, bus) :: rest =>
      match hw bus address with
      | Present => scan_verdict hw rest
      | Absent => Returns false
      | Fault => Raises BusAccessError
      end
  end.

Fixpoint scan_events (hw : Z -> Z -> probe_outcome) (entries : list (Z * Z))
    : list event :=
  match entries with
  | [] => []
  | (address, bus) :: rest =>
      Probe bus address (hw bus address)
      :: (if is_present (hw bus address) then scan_events hw rest else [])
  end.

(** The conjunction of the probe answers over all entries. *)
Definition all_present (hw : Z -> Z -> probe_outcome) (entries : list (Z * Z))
    : bool :=
  forallb (fun '(address, bus) => is_present (hw bus address)) entries.

(** The serial table of the board. *)
Definition tummler_serials : list Serial :=
  [ mkSerial "C" "/dev/ttyAMA0"; mkSerial "B" "/dev/ttyAMA2" ].

(** The keywords the base constructor receives from [Tummler.__init__]. *)
Definition forwarded (data : gmap string value) : gmap string value :=
  <["platform" := VPlatform Platform.Tummler]> (<["name" := VStr "Tummler"]> data).

(** The probe that [detect] issues for the entry [(address, bus)] of the
    table, with the answer of the hardware. *)
Definition probe_of (hw : Z -> Z -> probe_outcome) (entry : Z * Z) : event :=
  let '(address, bus) := entry in Probe bus address (hw bus address).

(** [Tummler.__init__] with the constructor reached through [super()] left
    open: the body of the source, whatever the base class does. *)
Definition init_via (base : ref -> gmap string value -> M unit)
    (self : ref) (data : gmap string value) : M unit :=
  let name := "Tummler" in
  let plat := Platform.Tummler in
  kwargs <-- lift (merge_keywords data
                     [("name", VStr name); ("platform", VPlatform plat)]) ;;
  base self kwargs.

(** The keyword the duplicate check reports: the explicit keywords are
    merged in the order they are written, [name] before [platform]. *)
Definition clashing_keyword (data : gmap string value) : string :=
  match data !! "name" with
  | Some _ => "name"
  | None => "platform"
  end.

(** ** Running [all] over the probes *)

Section Scan.
Variable self : ref.

Lemma detect_unfold (w : World) :
  Tummler.detect self w
  = all (probe_entry self) (values (cls_devices (Tummler_class w))) w.
Proof.
  unfold Tummler.detect, bind, read_devices; simpl.
  f_equal.
Qed.

Lemma scan_run (entries : list (Z * Z)) (w : World) :
  all (probe_entry self) entries w
  = (scan_verdict (hardware w) entries,
     mkWorld (hardware w) (Tummler_class w) (heap w)
             (trace w ++ scan_events (hardware w) entries)).
Proof.
  revert w; induction entries as [|[address bus] rest IH]; intros w.
  - simpl. unfold ret. rewrite app_nil_r. now destruct w.
  - simpl. unfold bind, probe_entry, LinuxFlightController.check_for_i2c_device.
    destruct (hardware w bus address) eqn:Hhw; simpl.
    + rewrite IH. simpl. now rewrite <- app_assoc.
    + reflexivity.
    + reflexivity.
Qed.

Lemma detect_run (w : World) :
  Tummler.detect self w
  = (scan_verdict (hardware w) (values (cls_devices (Tummler_class w))),
     mkWorld (hardware w) (Tummler_class w) (heap w)
             (trace w ++ scan_events (hardware w)
                                     (values (cls_devices (Tummler_class w))))).
Proof. rewrite detect_unfold. apply scan_run. Qed.

Lemma detect_emitted (w : World) :
  emitted (Tummler.detect self) w
  = scan_events (hardware w) (values (cls_devices (Tummler_class w))).
Proof.
  unfold emitted, world_after. rewrite detect_run. simpl.
  now rewrite drop_app_length.
Qed.
End Scan.

(** ** The scan, as a function of the hardware *)

Lemma scan_verdict_no_fault hw entries :
  (forall address bus, In (address, bus) entries -> hw bus address <> Fault) ->
  scan_verdict hw entries = Returns (all_present hw entries).
Proof.
  induction entries as [|[address bus] rest IH]; intros Hok; simpl.
  - reflexivity.
  - assert (Hhere : hw bus address <> Fault) by (apply Hok; now left).
    destruct (hw bus address); simpl.
    + apply IH. intros a b Hin. apply Hok. now right.
    + reflexivity.
    + congruence.
Qed.

Lemma scan_verdict_fault hw entries bus address :
  In (Probe bus address Fault) (scan_events hw entries) ->
  scan_verdict hw entries = Raises BusAccessError.
Proof.
  induction entries as [|[a b] rest IH]; simpl; intros Hin.
  - contradiction.
  - destruct (hw b a) eqn:Hhw; simpl in Hin.
    + destruct Hin as [Heq | Hin]; [congruence | now apply IH].
    + destruct Hin as [Heq | []]. congruence.
    + reflexivity.
Qed.

Lemma all_present_perm hw (xs ys : list (Z * Z)) :
  Permutation xs ys -> all_present hw xs = all_present hw ys.
Proof.
  unfold all_present.
  induction 1 as [|x xs ys _ IH|x y xs|xs ys zs _ IH1 _ IH2]; simpl.
  - reflexivity.
  - now rewrite IH.
  - destruct x as [a b], y as [a' b'].
    destruct (is_present (hw b a)), (is_present (hw b' a')); reflexivity.
  - now rewrite IH1.
Qed.

Lemma in_values_entry (devs : device_table) address bus :
  In (address, bus) (values devs) ->
  exists key, In (key, (address, bus)) devs.
Proof.
  unfold values. rewrite in_map_iff.
  intros [[key entry] [Heq Hin]]. simpl in Heq. subst entry. now exists key.
Qed.

Lemma fault_free_values (w : World) :
  fault_free w ->
  forall address bus,
    In (address, bus) (values (cls_devices (Tummler_class w))) ->
    hardware w bus address <> Fault.
Proof.
  intros Hok address bus Hin.
  destruct (in_values_entry _ _ _ Hin) as [key Hkey].
  exact (Hok key address bus Hkey).
Qed.

(** ** Detection *)

Lemma detect_fault_free (self : ref) (w : World) :
  fault_free w ->
  result_of (Tummler.detect self) w
  = Returns (all_present (hardware w) (values (cls_devices (Tummler_class w)))).
Proof.
  intros Hok. unfold result_of. rewrite detect_run. simpl.
  apply scan_verdict_no_fault, fault_free_values, Hok.
Qed.

(** C1. When no configured address answers with an access fault, [detect]
    returns the conjunction of the probe answers over all entries of
    [devices]: [true] if every configured address probes present, [false] if
    at least one probes absent.  For the class as it is defined the table is
    not empty and the verdict is the answer of bus 1 at address 0x66. *)
Theorem detect_is_conjunction (self : ref) (w : World) :
  fault_free w ->
  result_of (Tummler.detect self) w
  = Returns (all_present (hardware w) (values (cls_devices (Tummler_class w))))
  /\ ((forall key address bus,
          In (key, (address, bus)) (cls_devices (Tummler_class w)) ->
          hardware w bus address = Present) ->
      result_of (Tummler.detect self) w = Returns true)
  /\ ((exists key address bus,
          In (key, (address, bus)) (cls_devices (Tummler_class w)) /\
          hardware w bus address = Absent) ->
      result_of (Tummler.detect self) w = Returns false)
  /\ (class_defined w ->
      cls_devices (Tummler_class w) <> [] /\
      result_of (Tummler.detect self) w
      = Returns (is_present (hardware w 1 0x66))).
Proof.
  intros Hok.
  assert (Hres : result_of (Tummler.detect self) w
                 = Returns (all_present (hardware w)
                              (values (cls_devices (Tummler_class w))))).
  { now apply detect_fault_free. }
  split; [exact Hres|]. rewrite Hres.
  split; [|split; [|intros Hcls; split]].
  - intros Hall. f_equal. unfold all_present. apply forallb_forall.
    intros [address bus] Hin.
    destruct (in_values_entry _ _ _ Hin) as [key Hkey].
    now rewrite (Hall key address bus Hkey).
  - intros (key & address & bus & Hin & Habs). f_equal.
    unfold all_present.
    destruct (forallb _ _) eqn:Hall; [|reflexivity].
    rewrite forallb_forall in Hall.
    assert (Hv : In (address, bus) (values (cls_devices (Tummler_class w)))).
    { unfold values. apply in_map_iff. now exists (key, (address, bus)). }
    specialize (Hall _ Hv). simpl in Hall. rewrite Habs in Hall. discriminate.
  - rewrite Hcls. discriminate.
  - rewrite Hcls. simpl. now rewrite andb_true_r.
Qed.

Lemma detect_is_conjunction_witness :
  fault_free (boot (fun _ _ => Absent))
  /\ result_of (Tummler.detect 0%nat) (boot (fun _ _ => Absent)) = Returns false.
Proof.
  assert (Hok : fault_free (boot (fun _ _ => Absent))).
  { intros key address bus _. discriminate. }
  split; [exact Hok|].
  destruct (detect_is_conjunction 0%nat (boot (fun _ _ => Absent)) Hok)
    as (_ & _ & _ & Hcls).
  destruct (Hcls eq_refl) as [_ Hres]. exact Hres.
Defined.

(** C2. A probe that raises [BusAccessError] during [detect] makes [detect]
    raise that error: whenever the log of the call holds a probe that
    failed, the result is the error and not a boolean, [false] in
    particular.  For the class as it is defined this is the case as soon as
    bus 1 cannot be queried at address 0x66. *)
Theorem detect_propagates_bus_error (self : ref) (w : World) :
  ((exists bus address,
       In (Probe bus address Fault) (emitted (Tummler.detect self) w)) ->
   result_of (Tummler.detect self) w = Raises BusAccessError
   /\ result_of (Tummler.detect self) w <> Returns false)
  /\ (class_defined w -> hardware w 1 0x66 = Fault ->
      In (Probe 1 0x66 Fault) (emitted (Tummler.detect self) w)
      /\ result_of (Tummler.detect self) w = Raises BusAccessError).
Proof.
  split.
  - intros (bus & address & Hin).
    rewrite detect_emitted in Hin.
    assert (Hres : result_of (Tummler.detect self) w = Raises BusAccessError).
    { unfold result_of. rewrite detect_run. simpl.
      eapply scan_verdict_fault, Hin. }
    split; [exact Hres|]. rewrite Hres. discriminate.
  - intros Hcls Hfault.
    rewrite detect_emitted. unfold result_of. rewrite detect_run.
    rewrite Hcls. simpl. rewrite Hfault. simpl. split; [now left|reflexivity].
Qed.

Lemma detect_propagates_bus_error_witness :
  class_defined (boot (fun _ _ => Fault))
  /\ result_of (Tummler.detect 0%nat) (boot (fun _ _ => Fault))
     = Raises BusAccessError.
Proof.
  split; [reflexivity|].
  destruct (detect_propagates_bus_error 0%nat (boot (fun _ _ => Fault)))
    as [Hany Hcls].
  destruct (Hcls eq_refl eq_refl) as [Hin _].
  apply Hany. exists 1, 0x66. exact Hin.
Defined.

(** C4. One call of [detect] on the class as it is defined issues exactly
    one probe, and the probe receives the bus index 1 as its first argument
    and the address 0x66 as its second, although the table stores the pair
    as (address, bus index) = (0x66, 1). *)
Theorem detect_probes_bus_then_address (self : ref) (w : World) :
  class_defined w ->
  Tummler.devices = [("STM32", (0x66, 1))]
  /\ emitted (Tummler.detect self) w = [Probe 1 0x66 (hardware w 1 0x66)]
  /\ trace (world_after (Tummler.detect self) w)
     = trace w ++ [Probe 1 0x66 (hardware w 1 0x66)]
  /\ probe_calls (trace (world_after (Tummler.detect self) w))
     = S (probe_calls (trace w)).
Proof.
  intros Hcls. split; [reflexivity|].
  rewrite detect_emitted. unfold world_after. rewrite detect_run.
  rewrite Hcls. simpl.
  assert (Hev : (Probe 1 102 (hardware w 1 102)
                 :: (if is_present (hardware w 1 102) then [] else []))
                = [Probe 1 102 (hardware w 1 102)]).
  { now destruct (is_present (hardware w 1 102)). }
  rewrite Hev. repeat split.
  unfold probe_calls. rewrite filter_app, length_app. simpl. lia.
Qed.

Lemma detect_probes_bus_then_address_witness :
  class_defined (boot (fun _ _ => Present))
  /\ emitted (Tummler.detect 0%nat) (boot (fun _ _ => Present))
     = [Probe 1 0x66 Present].
Proof.
  split; [reflexivity|].
  exact (proj1 (proj2 (detect_probes_bus_then_address
                         0%nat (boot (fun _ _ => Present)) eq_refl))).
Defined.

(** C7. Over an empty [devices] mapping [detect] returns [true]: the
    conjunction over zero probes; no probe is issued. *)
Theorem detect_empty_table (self : ref) (w : World) :
  cls_devices (Tummler_class w) = [] ->
  result_of (Tummler.detect self) w = Returns true
  /\ emitted (Tummler.detect self) w = [].
Proof.
  intros Hempty. rewrite detect_emitted. unfold result_of.
  rewrite detect_run, Hempty. simpl. split; reflexivity.
Qed.

Lemma detect_empty_table_witness :
  cls_devices (Tummler_class (with_devices [] (boot (fun _ _ => Absent)))) = []
  /\ result_of (Tummler.detect 0%nat)
               (with_devices [] (boot (fun _ _ => Absent))) = Returns true.
Proof.
  split; [reflexivity|].
  exact (proj1 (detect_empty_table
                  0%nat (with_devices [] (boot (fun _ _ => Absent))) eq_refl)).
Defined.

(** C8. The boolean result of [detect] does not depend on the order in
    which the entries are probed: for every permutation of the entries of
    the device table and every assignment of probe answers without access
    fault on them, [detect] returns the same value. *)
Theorem detect_order_irrelevant (self : ref) (w : World)
    (devs devs' : device_table) :
  Permutation devs devs' ->
  (forall key address bus,
      In (key, (address, bus)) devs -> hardware w bus address <> Fault) ->
  result_of (Tummler.detect self) (with_devices devs w)
  = result_of (Tummler.detect self) (with_devices devs' w).
Proof.
  intros Hperm Hok.
  assert (Hok' : forall key address bus,
             In (key, (address, bus)) devs' -> hardware w bus address <> Fault).
  { intros key address bus Hin. apply (Hok key).
    eapply Permutation_in; [symmetry; exact Hperm | exact Hin]. }
  rewrite (detect_fault_free self (with_devices devs w) Hok).
  rewrite (detect_fault_free self (with_devices devs' w) Hok').
  simpl. f_equal.
  apply all_present_perm. unfold values. now apply Permutation_map.
Qed.

Lemma detect_order_irrelevant_witness :
  Permutation [("A", (0x10, 1)); ("B", (0x20, 3))]
              [("B", (0x20, 3)); ("A", (0x10, 1))]
  /\ result_of (Tummler.detect 0%nat)
       (with_devices [("A", (0x10, 1)); ("B", (0x20, 3))]
          (boot (fun bus _ => if Z.eqb bus 3 then Absent else Present)))
     = result_of (Tummler.detect 0%nat)
         (with_devices [("B", (0x20, 3)); ("A", (0x10, 1))]
            (boot (fun bus _ => if Z.eqb bus 3 then Absent else Present))).
Proof.
  split; [apply perm_swap|].
  apply detect_order_irrelevant; [apply perm_swap|].
  intros key address bus _. simpl. destruct (Z.eqb bus 3); discriminate.
Defined.

(** With an access fault among the answers the order does matter: the scan
    stops at an absent device before it reaches the faulty one, or meets the
    fault first. *)
Example detect_order_matters_under_fault :
  let hw := fun bus (_ : Z) => if Z.eqb bus 3 then Fault else Absent in
  result_of (Tummler.detect 0%nat)
    (with_devices [("A", (0x10, 1)); ("B", (0x20, 3))] (boot hw))
  = Returns false
  /\ result_of (Tummler.detect 0%nat)
       (with_devices [("B", (0x20, 3)); ("A", (0x10, 1))] (boot hw))
     = Raises BusAccessError.
Proof. split; reflexivity. Qed.

(** ** The serial table *)

(** C3. Every call of [get_serials] returns exactly the two serials
    (port "C" on /dev/ttyAMA0, then port "B" on /dev/ttyAMA2), in that
    order, and two calls in a row return the same sequence. *)
Theorem get_serials_fixed_table (self : ref) (w : World) :
  result_of (Tummler.get_serials self) w
  = Returns [ {| port := "C"; endpoint := "/dev/ttyAMA0" |};
              {| port := "B"; endpoint := "/dev/ttyAMA2" |} ]
  /\ result_of (first <-- Tummler.get_serials self ;;
                second <-- Tummler.get_serials self ;;
                ret (first, second)) w
     = Returns (tummler_serials, tummler_serials)
  /\ length tummler_serials = 2%nat
  /\ (tummler_serials !! 0%nat = Some (mkSerial "C" "/dev/ttyAMA0"))
  /\ (tummler_serials !! 1%nat = Some (mkSerial "B" "/dev/ttyAMA2")).
Proof. repeat split. Qed.

(** C5. [get_serials] never calls the bus probe and has no effect: the world
    after the call is the world before it, so the probe counter of the log
    does not move (it stays at zero on a fresh log), and the result is the
    same on every hardware, whatever the probe would answer. *)
Theorem get_serials_is_pure (self : ref) (w : World) :
  world_after (Tummler.get_serials self) w = w
  /\ emitted (Tummler.get_serials self) w = []
  /\ probe_calls (emitted (Tummler.get_serials self) w) = 0%nat
  /\ probe_calls (trace (world_after (Tummler.get_serials self) w))
     = probe_calls (trace w)
  /\ (forall hw, probe_calls (trace (world_after (Tummler.get_serials self)
                                                  (boot hw))) = 0%nat)
  /\ (forall self' w',
         result_of (Tummler.get_serials self') w'
         = result_of (Tummler.get_serials self) w).
Proof.
  assert (Hw : world_after (Tummler.get_serials self) w = w) by reflexivity.
  assert (Hem : emitted (Tummler.get_serials self) w = []).
  { unfold emitted. rewrite Hw. apply drop_all. }
  rewrite Hem, Hw. repeat split.
Qed.

(** ** Static data *)

(** C6. The device table of the class is not empty: it holds exactly the
    entry "STM32" -> (0x66, 1).  Neither [detect] nor [get_serials] changes
    the class namespace (manufacturer and device table) or any instance on
    the heap. *)
Theorem static_data_never_mutated :
  Tummler.devices = [("STM32", (0x66, 1))]
  /\ cls_devices Tummler.class_body <> []
  /\ cls_manufacturer Tummler.class_body = "Tummler ROV"
  /\ (forall self w,
         Tummler_class (world_after (Tummler.detect self) w) = Tummler_class w
         /\ heap (world_after (Tummler.detect self) w) = heap w)
  /\ (forall self w,
         Tummler_class (world_after (Tummler.get_serials self) w)
         = Tummler_class w
         /\ heap (world_after (Tummler.get_serials self) w) = heap w).
Proof.
  split; [reflexivity|]. split; [discriminate|]. split; [reflexivity|].
  split; intros self w.
  - unfold world_after. rewrite detect_run. simpl. split; reflexivity.
  - split; reflexivity.
Qed.

(** ** Construction *)

Lemma merge_keywords_fresh (data : gmap string value) :
  data !! "name" = None -> data !! "platform" = None ->
  merge_keywords data [("name", VStr "Tummler");
                       ("platform", VPlatform Platform.Tummler)]
  = Returns (forwarded data).
Proof.
  intros Hname Hplat. simpl. rewrite Hname.
  rewrite lookup_insert_ne by discriminate. now rewrite Hplat.
Qed.

Lemma merge_keywords_clash (data : gmap string value) :
  is_Some (data !! "name") \/ is_Some (data !! "platform") ->
  exists key,
    (key = "name" \/ key = "platform") /\
    merge_keywords data [("name", VStr "Tummler");
                         ("platform", VPlatform Platform.Tummler)]
    = Raises (TypeError (MultipleValues key)).
Proof.
  intros Hclash. simpl.
  destruct (data !! "name") as [v|] eqn:Hname.
  - exists "name". split; [now left | reflexivity].
  - destruct Hclash as [[v Hv] | [v Hv]]; [discriminate|].
    exists "platform". split; [now right|].
    rewrite lookup_insert_ne by discriminate. now rewrite Hv.
Qed.

Lemma forwarded_name (data : gmap string value) :
  forwarded data !! "name" = Some (VStr "Tummler").
Proof.
  unfold forwarded. rewrite lookup_insert_ne by discriminate.
  apply lookup_insert_eq.
Qed.

Lemma forwarded_platform (data : gmap string value) :
  forwarded data !! "platform" = Some (VPlatform Platform.Tummler).
Proof. unfold forwarded. apply lookup_insert_eq. Qed.



(** A reserved keyword stops the construction before the base constructor:
    the log is untouched. *)
Lemma construct_clash (data : gmap string value) (w : World) :
  is_Some (data !! "self") \/ is_Some (data !! "name")
  \/ is_Some (data !! "platform") ->
  exists key,
    Tummler.construct data w
    = (Raises (TypeError (MultipleValues key)),
       mkWorld (hardware w) (Tummler_class w) (heap w ++ [None]) (trace w)).
Proof.
  intros Hclash. unfold Tummler.construct, bind, allocate.
  destruct (data !! "self") as [v|] eqn:Hself.
  - exists "self". reflexivity.
  - destruct Hclash as [[v Hv] | Hclash]; [discriminate|].
    destruct (merge_keywords_clash data Hclash) as (key & _ & Hmerge).
    exists key. unfold Tummler.__init__, bind, lift. now rewrite Hmerge.
Qed.

Lemma init_clash (self : ref) (data : gmap string value) (w : World) :
  is_Some (data !! "name") \/ is_Some (data !! "platform") ->
  exists key,
    (key = "name" \/ key = "platform") /\
    Tummler.__init__ self data w = (Raises (TypeError (MultipleValues key)), w).
Proof.
  intros Hclash.
  destruct (merge_keywords_clash data Hclash) as (key & Hkey & Hmerge).
  exists key. split; [exact Hkey|].
  unfold Tummler.__init__, bind, lift. now rewrite Hmerge.
Qed.






(** C10. When the keyword dictionary holds the key "name" or the key
    "platform", the construction fails with the [TypeError] of a keyword
    given twice, and the base constructor has not run: [__init__] supplies
    both keywords itself next to the forwarded ones. *)
Theorem construct_rejects_reserved_keyword (data : gmap string value) (w : World) :
  is_Some (data !! "name") \/ is_Some (data !! "platform") ->
  (exists key,
      result_of (Tummler.construct data) w
      = Raises (TypeError (MultipleValues key)))
  /\ base_init_calls (emitted (Tummler.construct data) w) = 0%nat
  /\ trace (world_after (Tummler.construct data) w) = trace w
  /\ (forall self,
         (exists key,
             (key = "name" \/ key = "platform") /\
             result_of (Tummler.__init__ self data) w
             = Raises (TypeError (MultipleValues key)))
         /\ world_after (Tummler.__init__ self data) w = w).
Proof.
  intros Hclash.
  destruct (construct_clash data w (or_intror Hclash)) as [key Hrun].
  unfold result_of, emitted, world_after. rewrite Hrun. simpl.
  split; [now exists key|]. rewrite drop_all.
  split; [reflexivity|]. split; [reflexivity|].
  intros self. destruct (init_clash self data w Hclash) as (k & Hk & Hinit).
  rewrite Hinit. simpl. split; [now exists k | reflexivity].
Qed.

Lemma construct_rejects_reserved_keyword_witness :
  is_Some (({["platform" := VStr "Pixhawk"]} : gmap string value) !! "platform")
  /\ (exists key,
         result_of (Tummler.construct {["platform" := VStr "Pixhawk"]})
                   (boot (fun _ _ => Present))
         = Raises (TypeError (MultipleValues key)))
  /\ base_init_calls
       (emitted (Tummler.construct {["platform" := VStr "Pixhawk"]})
                (boot (fun _ _ => Present))) = 0%nat.
Proof.
  assert (Hkey : is_Some (({["platform" := VStr "Pixhawk"]}
                             : gmap string value) !! "platform")).
  { exists (VStr "Pixhawk"). reflexivity. }
  split; [exact Hkey|].
  destruct (construct_rejects_reserved_keyword
              {["platform" := VStr "Pixhawk"]} (boot (fun _ _ => Present))
              (or_intror Hkey)) as (Hres & Hcalls & _).
  split; [exact Hres | exact Hcalls].
Defined.

(** The key that is reported, on concrete dictionaries. *)
Example construct_duplicate_name :
  result_of (Tummler.construct {["name" := VStr "Other"]})
            (boot (fun _ _ => Present))
  = Raises (TypeError (MultipleValues "name")).
Proof. vm_compute. reflexivity. Qed.

Example construct_duplicate_platform :
  result_of (Tummler.construct {["platform" := VPlatform (Platform.Other "SITL")]})
            (boot (fun _ _ => Present))
  = Raises (TypeError (MultipleValues "platform")).
Proof. vm_compute. reflexivity. Qed.

Example construct_plain :
  result_of (Tummler.construct ∅) (boot (fun _ _ => Present)) = Returns 0%nat
  /\ base_init_calls (emitted (Tummler.construct ∅) (boot (fun _ _ => Present)))
     = 1%nat.
Proof. split; vm_compute; reflexivity. Qed.

(** ** The scan of [detect], entry by entry *)

Lemma scan_verdict_true_iff hw (entries : list (Z * Z)) :
  scan_verdict hw entries = Returns true
  <-> (forall address bus, In (address, bus) entries -> hw bus address = Present).
Proof.
  induction entries as [|[a b] rest IH]; simpl.
  - split; [intros _ address bus [] | reflexivity].
  - destruct (hw b a) eqn:Hhw.
    + rewrite IH. split.
      * intros Hrest address bus [Heq | Hin]; [congruence | now apply Hrest].
      * intros Hall address bus Hin. apply Hall. now right.
    + split; [discriminate|].
      intros Hall. specialize (Hall a b (or_introl eq_refl)). congruence.
    + split; [discriminate|].
      intros Hall. specialize (Hall a b (or_introl eq_refl)). congruence.
Qed.

Lemma table_all_present hw (devs : device_table) :
  (forall key address bus, In (key, (address, bus)) devs -> hw bus address = Present)
  <-> (forall address bus, In (address, bus) (values devs) -> hw bus address = Present).
Proof.
  split.
  - intros Hall address bus Hin.
    destruct (in_values_entry _ _ _ Hin) as [key Hkey]. now apply (Hall key).
  - intros Hall key address bus Hin. apply Hall.
    unfold values. apply in_map_iff. now exists (key, (address, bus)).
Qed.

(** The scan up to and at an entry that only present entries precede. *)
Lemma scan_split hw (pre : device_table) key address bus (post : device_table) :
  (forall k a b, In (k, (a, b)) pre -> hw b a = Present) ->
  scan_verdict hw (values (pre ++ (key, (address, bus)) :: post))
  = match hw bus address with
    | Present => scan_verdict hw (values post)
    | Absent => Returns false
    | Fault => Raises BusAccessError
    end
  /\ scan_events hw (values (pre ++ (key, (address, bus)) :: post))
     = map (probe_of hw) (values pre)
       ++ Probe bus address (hw bus address)
          :: (if is_present (hw bus address)
              then scan_events hw (values post) else []).
Proof.
  induction pre as [|[k [a b]] pre IH]; intros Hpre; simpl.
  - split; reflexivity.
  - assert (Hhere : hw b a = Present) by (apply (Hpre k); now left).
    rewrite Hhere. simpl.
    destruct IH as [IHv IHe].
    { intros k' a' b' Hin. apply (Hpre k'). now right. }
    split; [exact IHv|]. now rewrite IHe.
Qed.

(** Either every entry is present, or some entry is the first that is not. *)
Lemma first_failure hw (devs : device_table) :
  (forall key address bus, In (key, (address, bus)) devs -> hw bus address = Present)
  \/ (exists pre key address bus post,
         devs = pre ++ (key, (address, bus)) :: post
         /\ (forall k a b, In (k, (a, b)) pre -> hw b a = Present)
         /\ hw bus address <> Present).
Proof.
  induction devs as [|[k [a b]] devs IH].
  - left. intros key address bus [].
  - destruct (hw b a) eqn:Hhw.
    + destruct IH as [Hall | (pre & key & address & bus & post & Heq & Hpre & Hbad)].
      * left. intros key address bus [Heq | Hin]; [congruence | now apply (Hall key)].
      * right. exists ((k, (a, b)) :: pre), key, address, bus, post.
        split; [now rewrite Heq|]. split; [|exact Hbad].
        intros k' a' b' [Heq' | Hin]; [congruence | now apply (Hpre k')].
    + right. exists [], k, a, b, devs. split; [reflexivity|].
      split; [intros ? ? ? [] | congruence].
    + right. exists [], k, a, b, devs. split; [reflexivity|].
      split; [intros ? ? ? [] | congruence].
Qed.

Lemma scan_events_all_present hw (entries : list (Z * Z)) :
  (forall address bus, In (address, bus) entries -> hw bus address = Present) ->
  scan_events hw entries = map (probe_of hw) entries.
Proof.
  induction entries as [|[a b] rest IH]; intros Hall; simpl.
  - reflexivity.
  - rewrite (Hall a b (or_introl eq_refl)). simpl. f_equal.
    apply IH. intros address bus Hin. apply Hall. now right.
Qed.

Lemma scan_events_prefix hw (entries : list (Z * Z)) :
  scan_events hw entries
  = take (length (scan_events hw entries)) (map (probe_of hw) entries)
  /\ (length (scan_events hw entries) <= length entries)%nat.
Proof.
  induction entries as [|[a b] rest [IHeq IHlen]]; simpl.
  - split; [reflexivity | lia].
  - destruct (is_present (hw b a)); simpl.
    + split; [now rewrite <- IHeq | lia].
    + split; [now rewrite take_0 | lia].
Qed.

Lemma scan_events_probes hw (entries : list (Z * Z)) :
  probe_calls (scan_events hw entries) = length (scan_events hw entries)
  /\ base_init_calls (scan_events hw entries) = 0%nat.
Proof.
  unfold probe_calls, base_init_calls.
  induction entries as [|[a b] rest [IHp IHb]]; simpl.
  - split; reflexivity.
  - destruct (is_present (hw b a)); simpl.
    + split; [now rewrite IHp | exact IHb].
    + split; reflexivity.
Qed.

Lemma scan_events_nonempty hw (entries : list (Z * Z)) :
  entries <> [] -> scan_events hw entries <> [].
Proof. destruct entries as [|[a b] rest]; [congruence | discriminate]. Qed.

Lemma map_probe_of_length hw (entries : list (Z * Z)) :
  probe_calls (map (probe_of hw) entries) = length entries.
Proof.
  unfold probe_calls.
  induction entries as [|[a b] rest IH]; simpl; [reflexivity | now rewrite IH].
Qed.

Lemma result_of_detect (self : ref) (w : World) :
  result_of (Tummler.detect self) w
  = scan_verdict (hardware w) (values (cls_devices (Tummler_class w))).
Proof. unfold result_of. now rewrite detect_run. Qed.

(** ** What [detect] answers, access faults included *)

(** X1. [detect] returns [true] exactly when every configured address
    answers present; no assumption on access faults is needed. *)
Theorem detect_true_iff_all_present (self : ref) (w : World) :
  result_of (Tummler.detect self) w = Returns true
  <-> (forall key address bus,
          In (key, (address, bus)) (cls_devices (Tummler_class w)) ->
          hardware w bus address = Present).
Proof.
  rewrite result_of_detect, scan_verdict_true_iff.
  symmetry. apply table_all_present.
Qed.

(** X2. [detect] returns [false] exactly when the first entry of the table
    that is not present is absent: the entries before it are present, and
    what comes after it plays no part, faulty or not. *)
Theorem detect_false_iff_first_absent (self : ref) (w : World) :
  result_of (Tummler.detect self) w = Returns false
  <-> (exists pre key address bus post,
          cls_devices (Tummler_class w) = pre ++ (key, (address, bus)) :: post
          /\ (forall k a b, In (k, (a, b)) pre -> hardware w b a = Present)
          /\ hardware w bus address = Absent).
Proof.
  rewrite result_of_detect. split.
  - intros Hres.
    destruct (first_failure (hardware w) (cls_devices (Tummler_class w)))
      as [Hall | (pre & key & address & bus & post & Heq & Hpre & Hbad)].
    + pose proof (proj2 (scan_verdict_true_iff _ _)
                   (proj1 (table_all_present _ _) Hall)) as Htrue.
      congruence.
    + exists pre, key, address, bus, post. split; [exact Heq|].
      split; [exact Hpre|].
      rewrite Heq in Hres.
      rewrite (proj1 (scan_split (hardware w) pre key address bus post Hpre))
        in Hres.
      destruct (hardware w bus address); congruence.
  - intros (pre & key & address & bus & post & Heq & Hpre & Habs).
    rewrite Heq.
    rewrite (proj1 (scan_split (hardware w) pre key address bus post Hpre)).
    now rewrite Habs.
Qed.

(** X3. [detect] raises [BusAccessError] exactly when the first entry of
    the table that is not present answers with an access fault: the entries
    before it are present, and a fault behind an absent entry is never
    met. *)
Theorem detect_raises_iff_first_fault (self : ref) (w : World) :
  result_of (Tummler.detect self) w = Raises BusAccessError
  <-> (exists pre key address bus post,
          cls_devices (Tummler_class w) = pre ++ (key, (address, bus)) :: post
          /\ (forall k a b, In (k, (a, b)) pre -> hardware w b a = Present)
          /\ hardware w bus address = Fault).
Proof.
  rewrite result_of_detect. split.
  - intros Hres.
    destruct (first_failure (hardware w) (cls_devices (Tummler_class w)))
      as [Hall | (pre & key & address & bus & post & Heq & Hpre & Hbad)].
    + pose proof (proj2 (scan_verdict_true_iff _ _)
                   (proj1 (table_all_present _ _) Hall)) as Htrue.
      congruence.
    + exists pre, key, address, bus, post. split; [exact Heq|].
      split; [exact Hpre|].
      rewrite Heq in Hres.
      rewrite (proj1 (scan_split (hardware w) pre key address bus post Hpre))
        in Hres.
      destruct (hardware w bus address); congruence.
  - intros (pre & key & address & bus & post & Heq & Hpre & Hfault).
    rewrite Heq.
    rewrite (proj1 (scan_split (hardware w) pre key address bus post Hpre)).
    now rewrite Hfault.
Qed.

(** X4. A positive detection does not depend on the order of the table,
    even when some addresses would answer with an access fault: [detect]
    returns [true] on a table exactly when it does on any permutation of
    it. *)
Theorem detect_true_any_order (self : ref) (w : World)
    (devs devs' : device_table) :
  Permutation devs devs' ->
  (result_of (Tummler.detect self) (with_devices devs w) = Returns true
   <-> result_of (Tummler.detect self) (with_devices devs' w) = Returns true).
Proof.
  intros Hperm.
  rewrite !result_of_detect, !scan_verdict_true_iff. simpl.
  rewrite <- !table_all_present.
  split; intros Hall key address bus Hin; apply (Hall key).
  - apply (Permutation_in _ (Permutation_sym Hperm) Hin).
  - apply (Permutation_in _ Hperm Hin).
Qed.

Lemma detect_true_any_order_witness :
  Permutation [("A", (0x10, 1)); ("B", (0x20, 3))]
              [("B", (0x20, 3)); ("A", (0x10, 1))]
  /\ (result_of (Tummler.detect 0%nat)
        (with_devices [("A", (0x10, 1)); ("B", (0x20, 3))]
           (boot (fun _ _ => Present))) = Returns true
      <-> result_of (Tummler.detect 0%nat)
            (with_devices [("B", (0x20, 3)); ("A", (0x10, 1))]
               (boot (fun _ _ => Present))) = Returns true).
Proof.
  split; [apply perm_swap|].
  apply detect_true_any_order. apply perm_swap.
Defined.

(** ** The probes [detect] issues *)

(** X5. [detect] stops at the first entry that is not present: it probes
    the entries before it and that entry, in table order and with the bus
    index before the address, and none of the entries after it. *)
Theorem detect_stops_at_first_failure (self : ref) (w : World)
    (pre : device_table) (key : string) (address bus : Z) (post : device_table) :
  cls_devices (Tummler_class w) = pre ++ (key, (address, bus)) :: post ->
  (forall k a b, In (k, (a, b)) pre -> hardware w b a = Present) ->
  hardware w bus address <> Present ->
  emitted (Tummler.detect self) w
  = map (probe_of (hardware w)) (values pre)
    ++ [Probe bus address (hardware w bus address)]
  /\ probe_calls (emitted (Tummler.detect self) w) = S (length pre).
Proof.
  intros Heq Hpre Hbad.
  assert (Hev : emitted (Tummler.detect self) w
                = map (probe_of (hardware w)) (values pre)
                  ++ [Probe bus address (hardware w bus address)]).
  { rewrite detect_emitted, Heq.
    rewrite (proj2 (scan_split (hardware w) pre key address bus post Hpre)).
    destruct (hardware w bus address); [congruence | reflexivity | reflexivity]. }
  split; [exact Hev|]. rewrite Hev.
  unfold probe_calls. rewrite filter_app, length_app.
  fold (probe_calls (map (probe_of (hardware w)) (values pre))).
  rewrite map_probe_of_length. unfold values. rewrite length_map. simpl. lia.
Qed.

Lemma detect_stops_at_first_failure_witness :
  hardware (with_devices [("A", (0x10, 1)); ("B", (0x20, 3)); ("C", (0x30, 1))]
              (boot (fun bus _ => if Z.eqb bus 3 then Absent else Present)))
           3 0x20 <> Present
  /\ emitted (Tummler.detect 0%nat)
       (with_devices [("A", (0x10, 1)); ("B", (0x20, 3)); ("C", (0x30, 1))]
          (boot (fun bus _ => if Z.eqb bus 3 then Absent else Present)))
     = [Probe 1 0x10 Present; Probe 3 0x20 Absent].
Proof.
  split; [discriminate|].
  refine (proj1 (detect_stops_at_first_failure 0%nat
                   (with_devices
                      [("A", (0x10, 1)); ("B", (0x20, 3)); ("C", (0x30, 1))]
                      (boot (fun bus _ => if Z.eqb bus 3 then Absent else Present)))
                   [("A", (0x10, 1))] "B" 0x20 3 [("C", (0x30, 1))] eq_refl _ _)).
  - intros k a b [Heq | []]. injection Heq as _ <- <-. reflexivity.
  - discriminate.
Defined.

(** X6. When [detect] returns [true] it has probed every entry of the
    table exactly once, in table order, bus index first. *)
Theorem detect_true_probes_every_entry (self : ref) (w : World) :
  result_of (Tummler.detect self) w = Returns true ->
  emitted (Tummler.detect self) w
  = map (probe_of (hardware w)) (values (cls_devices (Tummler_class w)))
  /\ probe_calls (emitted (Tummler.detect self) w)
     = length (cls_devices (Tummler_class w)).
Proof.
  intros Hres. rewrite result_of_detect, scan_verdict_true_iff in Hres.
  rewrite detect_emitted, (scan_events_all_present _ _ Hres).
  split; [reflexivity|].
  rewrite map_probe_of_length. unfold values. apply length_map.
Qed.

Lemma detect_true_probes_every_entry_witness :
  result_of (Tummler.detect 0%nat)
    (with_devices [("A", (0x10, 1)); ("B", (0x20, 3))]
       (boot (fun _ _ => Present))) = Returns true
  /\ emitted (Tummler.detect 0%nat)
       (with_devices [("A", (0x10, 1)); ("B", (0x20, 3))]
          (boot (fun _ _ => Present)))
     = [Probe 1 0x10 Present; Probe 3 0x20 Present].
Proof.
  split; [reflexivity|].
  exact (proj1 (detect_true_probes_every_entry 0%nat
                  (with_devices [("A", (0x10, 1)); ("B", (0x20, 3))]
                     (boot (fun _ _ => Present))) eq_refl)).
Defined.

(** X7. Whatever the hardware answers, the probes of one call of [detect]
    are an initial segment of the table, in table order: never more probes
    than entries, at least one when the table is not empty, and nothing but
    probes. *)
Theorem detect_probes_within_table (self : ref) (w : World) :
  emitted (Tummler.detect self) w
  = take (length (emitted (Tummler.detect self) w))
         (map (probe_of (hardware w)) (values (cls_devices (Tummler_class w))))
  /\ (probe_calls (emitted (Tummler.detect self) w)
      <= length (cls_devices (Tummler_class w)))%nat
  /\ probe_calls (emitted (Tummler.detect self) w)
     = length (emitted (Tummler.detect self) w)
  /\ (cls_devices (Tummler_class w) <> [] ->
      emitted (Tummler.detect self) w <> []).
Proof.
  rewrite detect_emitted.
  destruct (scan_events_prefix (hardware w)
              (values (cls_devices (Tummler_class w)))) as [Hpre Hlen].
  destruct (scan_events_probes (hardware w)
              (values (cls_devices (Tummler_class w)))) as [Hprobes _].
  split; [exact Hpre|]. rewrite Hprobes.
  split; [unfold values in Hlen; now rewrite length_map in Hlen|].
  split; [reflexivity|].
  intros Hne. apply scan_events_nonempty.
  unfold values. destruct (cls_devices (Tummler_class w)); [congruence | discriminate].
Qed.

(** ** The keywords [__init__] hands to the base constructor *)

Lemma init_via_base :
  Tummler.__init__ = init_via LinuxFlightController.__init__.
Proof. reflexivity. Qed.

Lemma forwarded_other (data : gmap string value) (k : string) :
  k <> "name" -> k <> "platform" -> forwarded data !! k = data !! k.
Proof.
  intros Hname Hplat. unfold forwarded.
  rewrite lookup_insert_ne by congruence.
  now rewrite lookup_insert_ne by congruence.
Qed.

Lemma forwarded_size (data : gmap string value) :
  data !! "name" = None -> data !! "platform" = None ->
  size (forwarded data) = S (S (size data)).
Proof.
  intros Hname Hplat. unfold forwarded.
  rewrite map_size_insert_None.
  - now rewrite map_size_insert_None.
  - rewrite lookup_insert_ne by discriminate. exact Hplat.
Qed.

(** X8. When [data] holds neither "name" nor "platform", [__init__] enters
    the base constructor, whatever it is, with the keywords of [data] and
    the two of its own: "name" is "Tummler", "platform" is
    [Platform.Tummler], every other keyword has the value it has in [data],
    and none is dropped or added. *)
Theorem init_forwards_keywords
    (base : ref -> gmap string value -> M unit)
    (self : ref) (data : gmap string value) (w : World) :
  data !! "name" = None -> data !! "platform" = None ->
  exists kwargs : gmap string value,
    init_via base self data w = base self kwargs w
    /\ Tummler.__init__ self data w = LinuxFlightController.__init__ self kwargs w
    /\ kwargs !! "name" = Some (VStr "Tummler")
    /\ kwargs !! "platform" = Some (VPlatform Platform.Tummler)
    /\ (forall k, k <> "name" -> k <> "platform" -> kwargs !! k = data !! k)
    /\ size kwargs = S (S (size data)).
Proof.
  intros Hname Hplat. exists (forwarded data).
  assert (Hrun : forall b, init_via b self data w = b self (forwarded data) w).
  { intros b. unfold init_via, bind, lift.
    now rewrite (merge_keywords_fresh data Hname Hplat). }
  split; [apply Hrun|]. split; [rewrite init_via_base; apply Hrun|].
  split; [apply forwarded_name|]. split; [apply forwarded_platform|].
  split; [apply forwarded_other | now apply forwarded_size].
Qed.

Lemma init_forwards_keywords_witness :
  ({["label" := VStr "spare"]} : gmap string value) !! "name" = None
  /\ ({["label" := VStr "spare"]} : gmap string value) !! "platform" = None
  /\ exists kwargs : gmap string value,
       init_via (fun _ kw => log (BaseInit kw)) 0%nat
                {["label" := VStr "spare"]} (boot (fun _ _ => Absent))
       = log (BaseInit kwargs) (boot (fun _ _ => Absent))
       /\ kwargs !! "label" = Some (VStr "spare")
       /\ size kwargs = 3%nat.
Proof.
  assert (Hname : ({["label" := VStr "spare"]} : gmap string value) !! "name"
                  = None) by reflexivity.
  assert (Hplat : ({["label" := VStr "spare"]} : gmap string value) !! "platform"
                  = None) by reflexivity.
  split; [exact Hname|]. split; [exact Hplat|].
  destruct (init_forwards_keywords (fun _ kw => log (BaseInit kw)) 0%nat
              {["label" := VStr "spare"]} (boot (fun _ _ => Absent))
              Hname Hplat)
    as (kwargs & Hrun & _ & _ & _ & Hother & Hsize).
  exists kwargs. split; [exact Hrun|]. split.
  - rewrite Hother by discriminate. reflexivity.
  - rewrite Hsize. reflexivity.
Defined.

(** X9. When [data] holds "name" or "platform", [__init__] raises the
    [TypeError] of a keyword given twice and leaves the world as it was,
    whatever the base constructor is: it is not entered.  The keyword
    reported is "name" when [data] holds it, "platform" otherwise. *)
Theorem init_clash_skips_base
    (base : ref -> gmap string value -> M unit)
    (self : ref) (data : gmap string value) (w : World) :
  is_Some (data !! "name") \/ is_Some (data !! "platform") ->
  init_via base self data w
  = (Raises (TypeError (MultipleValues (clashing_keyword data))), w)
  /\ Tummler.__init__ self data w
     = (Raises (TypeError (MultipleValues (clashing_keyword data))), w).
Proof.
  intros Hclash.
  assert (Hrun : forall b,
             init_via b self data w
             = (Raises (TypeError (MultipleValues (clashing_keyword data))), w)).
  { intros b. unfold init_via, bind, lift, clashing_keyword. simpl.
    destruct (data !! "name") as [v|] eqn:Hname; [reflexivity|].
    destruct Hclash as [[v Hv] | [v Hv]]; [discriminate|].
    rewrite lookup_insert_ne by discriminate. now rewrite Hv. }
  split; [apply Hrun | rewrite init_via_base; apply Hrun].
Qed.

Lemma init_clash_skips_base_witness :
  is_Some (({["platform" := VStr "x"; "name" := VStr "y"]}
             : gmap string value) !! "platform")
  /\ init_via (fun _ kw => log (BaseInit kw)) 0%nat
              {["platform" := VStr "x"; "name" := VStr "y"]}
              (boot (fun _ _ => Absent))
     = (Raises (TypeError (MultipleValues "name")), boot (fun _ _ => Absent)).
Proof.
  assert (Hkey : is_Some (({["platform" := VStr "x"; "name" := VStr "y"]}
                             : gmap string value) !! "platform")).
  { exists (VStr "x"). reflexivity. }
  split; [exact Hkey|].
  exact (proj1 (init_clash_skips_base (fun _ kw => log (BaseInit kw)) 0%nat
                  {["platform" := VStr "x"; "name" := VStr "y"]}
                  (boot (fun _ _ => Absent)) (or_intror Hkey))).
Defined.
